(** * A real-time chat server (Socket.io + Mongoose): model and properties

    Shallow embedding of [server/models/Message.js] (the Mongoose schema of a
    chat message) and of [server.js] (the Socket.io event handlers and the
    history route [GET /api/messages]).

    - JavaScript values that reach the handlers are modelled by [JsVal].
    - The two in-memory registries [users] and [typingUsers] (plain JS
      objects keyed by [socket.id]) are finite maps from strings.
    - The MongoDB collection behind the [Message] model is a list of
      documents in insertion order, together with the next object id.
    - A handler returns the new server state and the ordered list of its
      side effects (database write, emits, console output). *)

From Stdlib Require Import Ascii String DecimalString.
From stdpp Require Import base numbers strings list gmap fin_maps sorting.

Open Scope string_scope.
Open Scope list_scope.
Open Scope Z_scope.

(** ** JavaScript values *)

Module JS.

(** The values a Socket.io client can send as an event argument: JSON
    scalars, arrays and plain objects, plus [undefined] for a missing
    argument. Numbers are the integers (exact below 2^53, where a double
    is exact as well); fractions, NaN and the infinities are not
    represented. *)
#[warnings="-register-all"]
Inductive JsVal : Type :=
| JUndefined
| JNull
| JBool (b : bool)
| JNum (n : Z)
| JStr (s : string)
| JArr (items : list JsVal)
| JObj (props : list (string * JsVal)).

(** ToBoolean: [undefined], [null], [false], [0] and [''] are falsy. *)
Definition truthy (v : JsVal) : bool :=
  match v with
  | JUndefined | JNull => false
  | JBool b => b
  | JNum n => negb (Z.eqb n 0)
  | JStr s => negb (String.eqb s "")
  | JArr _ | JObj _ => true
  end.

Definition nullish (v : JsVal) : bool :=
  match v with
  | JUndefined | JNull => true
  | _ => false
  end.

(** [typeof v === 'string'] *)
Definition is_string (v : JsVal) : bool :=
  match v with
  | JStr _ => true
  | _ => false
  end.

Fixpoint assoc (k : string) (props : list (string * JsVal)) : JsVal :=
  match props with
  | [] => JUndefined
  | (k', v) :: rest => if String.eqb k k' then v else assoc k rest
  end.

(** [v?.k] for the own properties the handlers read ([username],
    [message], [text], [room], [to]): none of them exists on the
    prototype of a string, number, boolean or array, so only a plain object
    can carry one. *)
Definition opt_get (v : JsVal) (k : string) : JsVal :=
  match v with
  | JObj props => assoc k props
  | _ => JUndefined
  end.

(** [a ?? b] *)
Definition coalesce (a b : JsVal) : JsVal :=
  if nullish a then b else a.

(** [a || b] *)
Definition or_else (a b : JsVal) : JsVal :=
  if truthy a then a else b.

(** [Number.prototype.toString()] on an integer (decimal digits, a
    leading minus sign for negatives; the exponent notation JavaScript
    turns to from 10^21 on is out of the range these numbers stand for). *)
Definition num_to_string (n : Z) : string :=
  NilZero.string_of_int (Z.to_int n).

(** [String(v)]: an array joins its elements with commas, [null] and
    [undefined] elements reading as the empty string; a plain object reads
    ['[object Object]']. *)
Fixpoint to_string (v : JsVal) : string :=
  match v with
  | JUndefined => "undefined"
  | JNull => "null"
  | JBool b => if b then "true" else "false"
  | JNum n => num_to_string n
  | JStr s => s
  | JArr items =>
      (fix join (l : list JsVal) : string :=
         match l with
         | [] => ""
         | x :: rest =>
             let here := if nullish x then "" else to_string x in
             match rest with
             | [] => here
             | _ => (here ++ "," ++ join rest)%string
             end
         end) items
  | JObj _ => "[object Object]"
  end.

End JS.
Export JS.

(** ** The Message model (server/models/Message.js) *)

Module Message.

(** The object literal handed to [Message.create] by the two send
    handlers: [room], [text], [sender] and [to] are whatever the client
    or the registry supplied, [senderId] is [socket.id] and [isPrivate] a
    boolean literal. *)
Record Draft : Type := mkDraft {
  d_room : JsVal;
  d_text : JsVal;
  d_sender : JsVal;
  d_senderId : string;
  d_to : JsVal;
  d_isPrivate : bool;
}.

(** A stored document. [None] stands for [null]. *)
Record Doc : Type := mkDoc {
  _id : N;
  room : option string;
  text : string;
  sender : option string;
  senderId : string;
  to : option string;
  isPrivate : bool;
  createdAt : Z;
}.

Inductive Casted : Type :=
| cast_error
| cast_undefined
| cast_null
| cast_string (s : string).

(** Mongoose's cast to [String]: [null] and [undefined] pass through; a
    value with a string [_id] casts to that id; a value whose [toString]
    is not [Object.prototype.toString] and which is not an array casts by
    [toString()]; anything else is a CastError. *)
Definition castString (v : JsVal) : Casted :=
  match v with
  | JUndefined => cast_undefined
  | JNull => cast_null
  | JStr s => cast_string s
  | JNum n => cast_string (num_to_string n)
  | JBool b => cast_string (if b then "true" else "false")
  | JArr _ => cast_error
  | JObj props =>
      match assoc "_id" props with
      | JStr s => if String.eqb s "" then cast_error else cast_string s
      | _ => cast_error
      end
  end.

Inductive CreateError : Type :=
| CastError (path : string)
| Required (path : string)
| StorageUnavailable.

(** A schema path of type [String] with a [default]: the default replaces
    [undefined] only, an explicit [null] is kept. *)
Definition with_default (c : Casted) (dflt : option string)
  : option (option string) :=
  match c with
  | cast_error => None
  | cast_undefined => Some dflt
  | cast_null => Some None
  | cast_string s => Some (Some s)
  end.

(** [required: true] on a [String] path: the value has to be a string of
    positive length (Mongoose's [SchemaString.checkRequired]); [null],
    [undefined] and [''] are rejected. *)
Definition checkRequired (c : Casted) : option string :=
  match c with
  | cast_string s => if String.eqb s "" then None else Some s
  | _ => None
  end.

(** The collection: documents in insertion order and the id the next
    document gets. Nothing in the server updates or deletes a document. *)
Record Collection : Type := mkCollection {
  docs : list Doc;
  next_id : N;
}.

(** [Date.now()] at the call and whether MongoDB answers. *)
Record Env : Type := mkEnv {
  db_up : bool;
  now : Z;
}.

(** Schema casting and validation of a draft:
    [room: {type: String, default: 'global'}],
    [text: {type: String, required: true}],
    [sender: {type: String, default: 'Anonymous'}],
    [senderId: {type: String}], [to: {type: String, default: null}],
    [isPrivate: {type: Boolean, default: false}],
    [createdAt: {type: Date, default: Date.now}]. *)
Definition validate (d : Draft) (oid : N) (t : Z) : CreateError + Doc :=
  match with_default (castString (d_room d)) (Some "global") with
  | None => inl (CastError "room")
  | Some r =>
    match castString (d_text d) with
    | cast_error => inl (CastError "text")
    | ctext =>
      match checkRequired ctext with
      | None => inl (Required "text")
      | Some txt =>
        match with_default (castString (d_sender d)) (Some "Anonymous") with
        | None => inl (CastError "sender")
        | Some sd =>
          match with_default (castString (d_to d)) None with
          | None => inl (CastError "to")
          | Some target =>
              inr {| _id := oid; room := r; text := txt; sender := sd;
                     senderId := d_senderId d; to := target;
                     isPrivate := d_isPrivate d; createdAt := t |}
          end
        end
      end
    end
  end.

(** [Message.create(draft)]: validate, then insert. *)
Definition create (d : Draft) (env : Env) (c : Collection)
  : (CreateError + Doc) * Collection :=
  match validate d (next_id c) (now env) with
  | inl e => (inl e, c)
  | inr doc =>
      if db_up env
      then (inr doc, {| docs := docs c ++ [doc]; next_id := N.succ (next_id c) |})
      else (inl StorageUnavailable, c)
  end.

End Message.
Export Message.

(** ** The Socket.io server (server.js) *)

(** [{ username, id: socket.id }]: an entry of [users], also the payload of
    [user_joined] and [user_left]. *)
Record User : Type := mkUser {
  username : JsVal;
  id : string;
}.

(** Payload of [receive_message]. *)
Record PublicPayload : Type := mkPublicPayload {
  pub_id : N;
  pub_sender : option string;
  pub_senderId : string;
  pub_message : string;
  pub_room : option string;
  pub_isPrivate : bool;
  pub_timestamp : Z;
}.

(** Payload of [private_message]. *)
Record PrivatePayload : Type := mkPrivatePayload {
  prv_id : N;
  prv_sender : option string;
  prv_senderId : string;
  prv_to : option string;
  prv_message : string;
  prv_isPrivate : bool;
  prv_timestamp : Z;
}.

(** An outbound event: its name and payload. *)
Inductive Packet : Type :=
| user_list (l : list User)
| user_joined (u : User)
| user_left (u : User)
| typing_users (l : list JsVal)
| receive_message (p : PublicPayload)
| private_message (p : PrivatePayload).

Inductive LogLine : Type :=
| joined_the_chat (name : JsVal)
| left_the_chat (name : JsVal).

Inductive ErrLine : Type :=
| error_saving_public (e : CreateError)
| error_saving_private (e : CreateError).

(** The side effects of a handler, in the order they happen. *)
Inductive Effect : Type :=
| db_insert (d : Doc)                      (* the write done by Message.create *)
| io_emit (p : Packet)                     (* io.emit(...) *)
| socket_to_emit (rooms : JsVal) (p : Packet) (* socket.to(rooms).emit(...) *)
| socket_emit (p : Packet)                 (* socket.emit(...) *)
| console_log (l : LogLine)
| console_error (l : ErrLine)
| unhandled_rejection.                     (* the handler's promise rejects *)

(** [users], [typingUsers] and the collection of the [Message] model. The
    keys of both registries are socket ids, which Socket.io generates. *)
Record Server : Type := mkServer {
  users : gmap string User;
  typingUsers : gmap string JsVal;
  messages : Collection;
}.

(** [Object.values(o)]; the order is the map's own (the spec treats the
    listing as an unordered snapshot). *)
Definition Object_values {V : Type} (o : gmap string V) : list V :=
  (map_to_list o).*2.

(** [typeof payload === 'string' ? payload : payload?.username] *)
Definition join_username (payload : JsVal) : JsVal :=
  if is_string payload then payload else opt_get payload "username".

(** [socket.on('user_join', payload => ...)] *)
Definition on_user_join (sid : string) (payload : JsVal) (s : Server)
  : Server * list Effect :=
  let username := join_username payload in
  let users' := <[sid := mkUser username sid]> (users s) in
  (mkServer users' (typingUsers s) (messages s),
   [ io_emit (user_list (Object_values users'));
     io_emit (user_joined (mkUser username sid));
     console_log (joined_the_chat username) ]).

(** [socket.on('typing', isTyping => ...)] *)
Definition on_typing (sid : string) (isTyping : JsVal) (s : Server)
  : Server * list Effect :=
  match users s !! sid with
  | Some u =>
      let typing' :=
        if truthy isTyping
        then <[sid := username u]> (typingUsers s)
        else delete sid (typingUsers s) in
      (mkServer (users s) typing' (messages s),
       [ io_emit (typing_users (Object_values typing')) ])
  | None => (s, [])
  end.

(** [socket.on('disconnect', () => ...)] *)
Definition on_disconnect (sid : string) (s : Server) : Server * list Effect :=
  let left :=
    match users s !! sid with
    | Some u => [ io_emit (user_left (mkUser (username u) sid));
                  console_log (left_the_chat (username u)) ]
    | None => []
    end in
  let users' := delete sid (users s) in
  let typing' := delete sid (typingUsers s) in
  (mkServer users' typing' (messages s),
   left ++ [ io_emit (user_list (Object_values users'));
             io_emit (typing_users (Object_values typing')) ]).

(** An [async] handler around one [await Message.create(...)]: what it
    asks the store and how it goes on with the answer; or, when binding its
    parameter throws, a rejected promise nobody handles. *)
Inductive Async : Type :=
| await_create (d : Draft) (resume : CreateError + Doc -> list Effect)
| rejected.

(** [users[socket.id]?.username || 'Anonymous'] *)
Definition sender_name (sid : string) (s : Server) : JsVal :=
  or_else (match users s !! sid with
           | Some u => username u
           | None => JUndefined
           end) (JStr "Anonymous").

(** The [message] object built by the [send_message] handler. *)
Definition public_message (sid : string) (messageData : JsVal) (s : Server)
  : Draft :=
  let text := coalesce (opt_get messageData "message")
                (coalesce (opt_get messageData "text") (JStr "")) in
  let room := coalesce (opt_get messageData "room") (JStr "global") in
  {| d_room := room; d_text := text; d_sender := sender_name sid s;
     d_senderId := sid; d_to := JNull; d_isPrivate := false |}.

(** The [payload] emitted as [receive_message]. *)
Definition public_payload (saved : Doc) : PublicPayload :=
  {| pub_id := _id saved; pub_sender := sender saved;
     pub_senderId := senderId saved; pub_message := text saved;
     pub_room := room saved; pub_isPrivate := isPrivate saved;
     pub_timestamp := createdAt saved |}.

(** [socket.on('send_message', async messageData => ...)] *)
Definition on_send_message (sid : string) (messageData : JsVal) (s : Server)
  : Async :=
  await_create (public_message sid messageData s) (fun r =>
    match r with
    | inr saved => [ io_emit (receive_message (public_payload saved)) ]
    | inl err => [ console_error (error_saving_public err) ]
    end).

(** The [messageData] object built by the [private_message] handler from
    the destructured [{ to, message }]. *)
Definition private_messageData (sid : string) (payload : JsVal) (s : Server)
  : Draft :=
  {| d_room := JNull; d_text := opt_get payload "message";
     d_sender := sender_name sid s; d_senderId := sid;
     d_to := opt_get payload "to"; d_isPrivate := true |}.

(** The [payload] emitted as [private_message]. *)
Definition private_payload (saved : Doc) : PrivatePayload :=
  {| prv_id := _id saved; prv_sender := sender saved;
     prv_senderId := senderId saved; prv_to := to saved;
     prv_message := text saved; prv_isPrivate := isPrivate saved;
     prv_timestamp := createdAt saved |}.

(** [socket.on('private_message', async ({ to, message }) => ...)]:
    destructuring [undefined] or [null] throws before the [try]. *)
Definition on_private_message (sid : string) (payload : JsVal) (s : Server)
  : Async :=
  if nullish payload then rejected else
  await_create (private_messageData sid payload s) (fun r =>
    match r with
    | inr saved =>
        [ socket_to_emit (opt_get payload "to")
            (private_message (private_payload saved));
          socket_emit (private_message (private_payload saved)) ]
    | inl err => [ console_error (error_saving_private err) ]
    end).

(** Running an async handler against the store: the write (if any) comes
    first, the continuation's effects follow. The send handlers read the
    registries before the [await] only and never write them, so handling
    other events while the store works changes none of these effects.
    A rejection nobody handles ends the Node process: both registries are
    gone with it, the collection stays in MongoDB, and what is left is the
    state of a server started anew on that collection. *)
Definition run_async (a : Async) (env : Env) (s : Server)
  : Server * list Effect :=
  match a with
  | rejected => (mkServer ∅ ∅ (messages s), [ unhandled_rejection ])
  | await_create d resume =>
      let '(r, coll) := create d env (messages s) in
      (mkServer (users s) (typingUsers s) coll,
       match r with
       | inr saved => db_insert saved :: resume r
       | inl _ => resume r
       end)
  end.

Inductive Event : Type :=
| ev_user_join (payload : JsVal)
| ev_send_message (messageData : JsVal)
| ev_typing (isTyping : JsVal)
| ev_private_message (payload : JsVal)
| ev_disconnect.

(** The two [async] handlers, by event. *)
Definition async_handler (sid : string) (e : Event) (s : Server)
  : option Async :=
  match e with
  | ev_send_message messageData => Some (on_send_message sid messageData s)
  | ev_private_message payload => Some (on_private_message sid payload s)
  | _ => None
  end.

(** One inbound event of socket [sid], handled to completion. *)
Definition handle (sid : string) (e : Event) (env : Env) (s : Server)
  : Server * list Effect :=
  match e with
  | ev_user_join payload => on_user_join sid payload s
  | ev_send_message messageData => run_async (on_send_message sid messageData s) env s
  | ev_typing isTyping => on_typing sid isTyping s
  | ev_private_message payload => run_async (on_private_message sid payload s) env s
  | ev_disconnect => on_disconnect sid s
  end.

(** ** The history route (GET /api/messages) *)

Module Query.

(** StrWhiteSpaceChar in one byte: TAB, LF, VT, FF, CR and the space. *)
Definition is_space (c : ascii) : bool :=
  let n := nat_of_ascii c in
  ((9 <=? n) && (n <=? 13) || (n =? 32))%nat.

(** StrWhiteSpaceChar in two bytes of UTF-8: U+00A0. *)
Definition is_space2 (c1 c2 : ascii) : bool :=
  ((nat_of_ascii c1 =? 194) && (nat_of_ascii c2 =? 160))%nat.

(** StrWhiteSpaceChar in three bytes of UTF-8: U+1680, U+2000 to U+200A,
    U+2028, U+2029, U+202F, U+205F, U+3000 and U+FEFF. *)
Definition is_space3 (c1 c2 c3 : ascii) : bool :=
  let a := nat_of_ascii c1 in
  let b := nat_of_ascii c2 in
  let c := nat_of_ascii c3 in
  ((a =? 225) && (b =? 154) && (c =? 128)
   || (a =? 226) && (b =? 128)
      && ((128 <=? c) && (c <=? 138) || (c =? 168) || (c =? 169) || (c =? 175))
   || (a =? 226) && (b =? 129) && (c =? 159)
   || (a =? 227) && (b =? 128) && (c =? 128)
   || (a =? 239) && (b =? 187) && (c =? 191))%nat.

Fixpoint trim_start (s : string) : string :=
  match s with
  | String c1 rest1 =>
      if is_space c1 then trim_start rest1
      else match rest1 with
           | String c2 rest2 =>
               if is_space2 c1 c2 then trim_start rest2
               else match rest2 with
                    | String c3 rest3 =>
                        if is_space3 c1 c2 c3 then trim_start rest3 else s
                    | EmptyString => s
                    end
           | EmptyString => s
           end
  | EmptyString => s
  end.

Definition digit_value (radix : Z) (c : ascii) : option Z :=
  let n := Z.of_nat (nat_of_ascii c) in
  let d := if (48 <=? n) && (n <=? 57) then n - 48
           else if (97 <=? n) && (n <=? 122) then n - 87
           else if (65 <=? n) && (n <=? 90) then n - 55
           else radix in
  if d <? radix then Some d else None.

(** The longest prefix of radix-[radix] digits; [None] when it is empty. *)
Fixpoint digits (radix : Z) (s : string) (acc : option Z) : option Z :=
  match s with
  | String c rest =>
      match digit_value radix c with
      | Some d => digits radix rest (Some (radix * default 0 acc + d))
      | None => acc
      end
  | EmptyString => acc
  end.

(** [parseInt(s)] without a radix; [None] is NaN. *)
Definition parseInt (s : string) : option Z :=
  let s1 := trim_start s in
  let '(sign, s2) :=
    match s1 with
    | String "-"%char rest => (-1, rest)
    | String "+"%char rest => (1, rest)
    | _ => (1, s1)
    end in
  let '(radix, s3) :=
    match s2 with
    | String "0"%char (String "x"%char rest) => (16, rest)
    | String "0"%char (String "X"%char rest) => (16, rest)
    | _ => (10, s2)
    end in
  match digits radix s3 None with
  | Some n => Some (sign * n)
  | None => None
  end.

(** [parseInt(v)] on a value of [req.query]: [parseInt] stringifies its
    argument first. *)
Definition parseInt_param (v : JsVal) : option Z :=
  parseInt (to_string v).

(** [n || 50] on a number: NaN and 0 are falsy. *)
Definition or_50 (n : option Z) : Z :=
  match n with
  | Some n => if n =? 0 then 50 else n
  | None => 50
  end.

(** [Message.find(query)] with [query] either [{ room }] for a string
    [room], or [{}]. *)
Definition matches (query : option string) (d : Doc) : Prop :=
  match query with
  | Some r => room d = Some r
  | None => True
  end.

#[global] Instance matches_dec query d : Decision (matches query d).
Proof. destruct query; simpl; apply _. Defined.

Definition find (query : option string) (c : Collection) : list Doc :=
  filter (matches query) (docs c).

(** What Mongoose and MongoDB make of [{ room: v }] when [v] is not a
    string (an array reads as [$in], an object as operators such as [$ne]):
    the test a document has to pass, or [None] when casting the filter
    throws. It is left open here. *)
Definition FilterSemantics : Type := JsVal -> option (Doc -> bool).

(** [Message.find(query)] for any [room] value; [None] when it throws. *)
Definition find_any (op : FilterSemantics) (query : option JsVal)
    (c : Collection) : option (list Doc) :=
  match query with
  | None => Some (find None c)
  | Some (JStr r) => Some (find (Some r) c)
  | Some v =>
      match op v with
      | Some keep => Some (filter (fun d => keep d = true) (docs c))
      | None => None
      end
  end.

(** [.sort({ createdAt: -1 })]: newest first. MongoDB leaves the order among
    equal timestamps open; here it is the merge sort's. *)
Definition newer_first (a b : Doc) : Prop := createdAt b <= createdAt a.

#[global] Instance newer_first_dec (a b : Doc) : Decision (newer_first a b) :=
  Z_le_dec (createdAt b) (createdAt a).

Definition sort_createdAt_desc (l : list Doc) : list Doc :=
  merge_sort newer_first l.

(** [.limit(n)]: MongoDB reads 0 as no limit and a negative limit as
    its absolute value. *)
Definition limit (n : Z) (l : list Doc) : list Doc :=
  if n =? 0 then l else take (Z.to_nat (Z.abs n)) l.

End Query.
Export Query.

Inductive Response : Type :=
| res_json (body : list Doc)
| res_status_500.

(** [Math.min(parseInt(req.query.limit) || 50, 200)] *)
Definition history_limit (q_limit : JsVal) : Z :=
  Z.min (or_50 (parseInt_param q_limit)) 200.

(** [req.query.room || 'global'] *)
Definition history_room (q_room : JsVal) : JsVal :=
  or_else q_room (JStr "global").

(** [app.get('/api/messages', async (req, res) => ...)]. A parameter of
    [req.query] is [undefined] when absent and otherwise a string, an array
    or an object, as the query-string parser delivers it. A [find] that
    throws, like a store that does not answer, ends in the [catch]. *)
Definition get_api_messages (op : FilterSemantics) (q_limit q_room : JsVal)
    (up : bool) (c : Collection) : Response :=
  let limit := history_limit q_limit in
  let room := history_room q_room in
  let query := if truthy room then Some room else None in
  if up
  then match find_any op query c with
       | Some found =>
           res_json (reverse (Query.limit limit (sort_createdAt_desc found)))
       | None => res_status_500
       end
  else res_status_500.

(** The room the route filters by, when that is a string. *)
Definition string_room (q_room : JsVal) : option string :=
  match history_room q_room with
  | JStr r => Some r
  | _ => None
  end.

(** ** Who receives an emit *)

(** The rooms named by the argument of [socket.to(...)]: a string, or an
    array of strings. *)
Definition room_names (v : JsVal) : list string :=
  match v with
  | JStr r => [r]
  | JArr items => omap (fun i => match i with JStr r => Some r | _ => None end) items
  | _ => []
  end.

(** The connections an effect of socket [sid] reaches, among the connected
    ones. No handler calls [socket.join], so a socket sits in one room, the
    one named by its own id; [socket.to(...)] leaves the emitting socket out. *)
Definition receivers (connected : list string) (sid : string) (e : Effect)
  : list string :=
  match e with
  | io_emit _ => connected
  | socket_to_emit rooms _ =>
      filter (fun c => c <> sid /\ c ∈ room_names rooms) connected
  | socket_emit _ => filter (fun c => c = sid) connected
  | _ => []
  end.

(** Every delivery of a handler's effects, receiver by receiver. *)
Definition deliveries (connected : list string) (sid : string)
    (out : list Effect) : list string :=
  flat_map (receivers connected sid) out.

(** How many copies reach connection [x]. *)
Definition copies (x : string) (received : list string) : nat :=
  length (filter (fun c => c = x) received).

(** ** The presence route (GET /api/users) *)

(** [app.get('/api/users', (req, res) => res.json(Object.values(users)))] *)
Definition get_api_users (s : Server) : list User :=
  Object_values (users s).

(** ** Runs *)

Definition init (c : Collection) : Server := mkServer ∅ ∅ c.

(** The effect with which the process ends. *)
Definition ends_process (e : Effect) : bool :=
  match e with
  | unhandled_rejection => true
  | _ => false
  end.

Definition exits (out : list Effect) : bool := existsb ends_process out.

(** A run: inbound events in the order the server handles them, each with
    its socket and the environment it meets. The run is over once the
    process has ended: the events left are not handled. *)
Fixpoint run (evs : list (string * Event * Env)) (s : Server) : Server :=
  match evs with
  | [] => s
  | (sid, e, env) :: rest =>
      let r := handle sid e env s in
      if exits r.2 then r.1 else run rest r.1
  end.

(** The states the server reaches from a start with empty registries. A
    step out of the state an ended process leaves is a step of a server
    started anew on the same collection. *)
Inductive reachable : Server -> Prop :=
| reachable_init c : reachable (init c)
| reachable_step s sid e env :
    reachable s -> reachable (handle sid e env s).1.

(** ** Invariants *)

(** Every entry of [users] records the key it is stored under. *)
Definition ids_match_keys (m : gmap string User) : Prop :=
  forall k u, m !! k = Some u -> id u = k.

(** Every stored id lies below the id the next document gets. *)
Definition ids_below (c : Collection) : Prop :=
  forall d, d ∈ docs c -> (_id d < next_id c)%N.


(** A typing mark belongs to a registered participant. *)
Definition typing_within_presence (s : Server) : Prop :=
  forall c, is_Some (typingUsers s !! c) -> is_Some (users s !! c).

(** ** Sample data *)

Definition empty_collection : Collection := mkCollection [] 0.

Definition at_time (t : Z) : Env := mkEnv true t.

Definition outage (t : Z) : Env := mkEnv false t.

(** Socket ["a"] has joined as Alice and is typing. *)
Definition alice_typing : Server :=
  run [ ("a", ev_user_join (JStr "Alice"), at_time 1);
        ("a", ev_typing (JBool true), at_time 2) ] (init empty_collection).

(** Socket ["a"] has joined with the empty string as its name. *)
Definition nameless_joined : Server :=
  run [ ("a", ev_user_join (JStr ""), at_time 1) ] (init empty_collection).

(** Sockets ["a"] (Alice) and ["b"] (Bob) have joined. *)
Definition alice_and_bob : Server :=
  run [ ("a", ev_user_join (JStr "Alice"), at_time 1);
        ("b", ev_user_join (JObj [("username", JStr "Bob")]), at_time 2) ]
      (init empty_collection).

(** A filter semantics under which every filter that is not a string
    throws. *)
Definition no_operator_filters : FilterSemantics := fun _ => None.

Definition hi_global : JsVal :=
  JObj [("message", JStr "hi"); ("room", JStr "global")].

Definition hi_empty_room : JsVal :=
  JObj [("message", JStr "hi"); ("room", JStr "")].

Definition psst_to_b : JsVal :=
  JObj [("to", JStr "b"); ("message", JStr "psst")].

Definition a_doc (oid : N) (r : option string) (txt : string)
    (from : string) (t : Z) : Doc :=
  {| _id := oid; room := r; text := txt; sender := Some from;
     senderId := "a"; to := None; isPrivate := false; createdAt := t |}.

(** Ascending order of [createdAt]: oldest first. *)
Definition older_first (a b : Doc) : Prop := createdAt a <= createdAt b.

(** ** Auxiliary tactics *)

(** Closes [x ∉ [a; b; ...]] when [x] differs from each entry by its
    constructor. *)
Ltac not_listed :=
  let H := fresh "Hin" in
  intros H;
  repeat (apply elem_of_cons in H as [H|H]; [discriminate H|]);
  by apply elem_of_nil in H.

(** ** The registries *)

Section Registries.

Lemma ids_match_keys_insert m k name :
  ids_match_keys m -> ids_match_keys (<[k := mkUser name k]> m).
Proof.
  intros Hm k' u. destruct (decide (k = k')) as [->|Hne].
  - rewrite lookup_insert_eq. by intros [= <-].
  - rewrite lookup_insert_ne by done. apply Hm.
Qed.

Lemma ids_match_keys_delete m k :
  ids_match_keys m -> ids_match_keys (delete k m).
Proof.
  intros Hm k' u Hk'. apply lookup_delete_Some in Hk' as [_ Hk']. by apply Hm.
Qed.

(** An async handler leaves both registries as they were, unless the
    process ends and takes them with it. *)
Lemma run_async_registries a env s :
  (users (run_async a env s).1 = users s
   /\ typingUsers (run_async a env s).1 = typingUsers s)
  \/ (a = rejected
      /\ users (run_async a env s).1 = ∅
      /\ typingUsers (run_async a env s).1 = ∅).
Proof.
  destruct a as [d k|]; simpl; [|by right].
  left. by destruct (create d env (messages s)).
Qed.

Lemma ids_match_keys_empty : ids_match_keys ∅.
Proof. intros k u. by rewrite lookup_empty. Qed.

Lemma handle_ids_match_keys sid e env s :
  ids_match_keys (users s) -> ids_match_keys (users (handle sid e env s).1).
Proof.
  intros Hs.
  assert (Hasync : forall a, ids_match_keys (users (run_async a env s).1)).
  { intros a. destruct (run_async_registries a env s) as [[-> _]|(_ & -> & _)];
      [done|apply ids_match_keys_empty]. }
  destruct e; unfold handle; try apply Hasync.
  - by apply ids_match_keys_insert.
  - unfold on_typing. by destruct (users s !! sid).
  - by apply ids_match_keys_delete.
Qed.

Lemma handle_typing_within_presence sid e env s :
  typing_within_presence s -> typing_within_presence (handle sid e env s).1.
Proof.
  intros Hs c.
  assert (Hasync : forall a,
    is_Some (typingUsers (run_async a env s).1 !! c) ->
    is_Some (users (run_async a env s).1 !! c)).
  { intros a. destruct (run_async_registries a env s) as [[-> ->]|(_ & _ & ->)];
      [apply Hs|]. rewrite lookup_empty. by intros [? ?]. }
  destruct e; unfold handle; try apply Hasync.
  - simpl. intros Hc. apply lookup_insert_is_Some'. right. by apply Hs.
  - unfold on_typing. destruct (users s !! sid) as [u|] eqn:Hu; [|apply Hs].
    simpl. destruct (truthy isTyping).
    + intros [Hc|Hc]%lookup_insert_is_Some'; [by subst; rewrite Hu|by apply Hs].
    + intros [_ Hc]%lookup_delete_is_Some. by apply Hs.
  - simpl. intros [Hne Hc]%lookup_delete_is_Some.
    apply lookup_delete_is_Some. split; [done|by apply Hs].
Qed.

Lemma reachable_ids_match_keys s : reachable s -> ids_match_keys (users s).
Proof.
  induction 1 as [c|s sid e env _ IH]; [|by apply handle_ids_match_keys].
  intros k u. simpl. by rewrite lookup_empty.
Qed.

(** The listing of a map with a fresh binding at [k]: that binding, then
    the listing of the rest. *)
Lemma Object_values_insert {V} (m : gmap string V) k v :
  Object_values (<[k := v]> m) ≡ₚ v :: Object_values (delete k m).
Proof.
  unfold Object_values. rewrite <- insert_delete_eq.
  rewrite map_to_list_insert by apply lookup_delete_eq. done.
Qed.

Lemma elem_of_Object_values {V} (m : gmap string V) v :
  v ∈ Object_values m <-> exists k, m !! k = Some v.
Proof.
  unfold Object_values. rewrite list_elem_of_fmap. split.
  - intros [[k v'] [-> Hin]]. exists k. by apply elem_of_map_to_list.
  - intros [k Hk]. exists (k, v). split; [done|by apply elem_of_map_to_list].
Qed.

Lemma filter_none {A} (P : A -> Prop) `{forall x, Decision (P x)} (l : list A) :
  (forall x, x ∈ l -> ~ P x) -> filter P l = [].
Proof.
  intros Hl. destruct (filter P l) as [|x l'] eqn:E; [done|].
  assert (Hx : x ∈ filter P l) by (rewrite E; left).
  apply list_elem_of_filter in Hx as [HP Hx]. by destruct (Hl x).
Qed.

(** Under [ids_match_keys], deleting [k] leaves no listed entry with id [k]. *)
Lemma no_entry_after_delete m k :
  ids_match_keys m ->
  filter (fun u => id u = k) (Object_values (delete k m)) = [].
Proof.
  intros Hm. apply filter_none. intros u Hu Hid.
  apply elem_of_Object_values in Hu as [k' Hk'].
  apply lookup_delete_Some in Hk' as [Hne Hk']. apply Hm in Hk'. congruence.
Qed.

End Registries.

(** ** The store *)

Section Store.

Lemma with_default_Some c dflt :
  is_Some (with_default c dflt) <-> c <> cast_error.
Proof. destruct c; simpl; split; intros; try done; by eexists. Qed.

(** What a successful validation means for the draft and the document. *)
Lemma validate_inr d oid t doc :
  validate d oid t = inr doc <->
  exists r txt sd target,
    with_default (castString (d_room d)) (Some "global") = Some r
    /\ castString (d_text d) = cast_string txt /\ txt <> ""
    /\ with_default (castString (d_sender d)) (Some "Anonymous") = Some sd
    /\ with_default (castString (d_to d)) None = Some target
    /\ doc = {| _id := oid; room := r; text := txt; sender := sd;
                senderId := d_senderId d; to := target;
                isPrivate := d_isPrivate d; createdAt := t |}.
Proof.
  unfold validate. split.
  - destruct (with_default (castString (d_room d)) _) as [r|]; [|done].
    destruct (castString (d_text d)) as [| | |txt]; try done. simpl.
    destruct (String.eqb_spec txt "") as [->|Hne]; [done|].
    destruct (with_default (castString (d_sender d)) _) as [sd|]; [|done].
    destruct (with_default (castString (d_to d)) _) as [target|]; [|done].
    intros [= <-]. by exists r, txt, sd, target.
  - intros (r & txt & sd & target & -> & -> & Hne & -> & -> & ->). simpl.
    by destruct (String.eqb_spec txt "").
Qed.

Lemma create_inr d env c doc c' :
  create d env c = (inr doc, c') <->
  validate d (next_id c) (now env) = inr doc
  /\ db_up env = true
  /\ c' = {| docs := docs c ++ [doc]; next_id := N.succ (next_id c) |}.
Proof.
  unfold create. destruct (validate d (next_id c) (now env)) as [e|doc0].
  - split; [done|]. by intros [? _].
  - destruct (db_up env); split.
    + by intros [= -> <-].
    + by intros ([= ->] & _ & ->).
    + done.
    + by intros (_ & ? & _).
Qed.

Lemma create_inl d env c e c' : create d env c = (inl e, c') -> c' = c.
Proof.
  unfold create. destruct (validate d (next_id c) (now env)).
  - by intros [= _ <-].
  - destruct (db_up env); [done|]. by intros [= _ <-].
Qed.

(** [Message.create] succeeds exactly when MongoDB answers, [text] casts
    to a non-empty string and no other path fails its cast. *)
Lemma create_succeeds_iff d env c :
  (exists doc c', create d env c = (inr doc, c')) <->
  db_up env = true
  /\ castString (d_room d) <> cast_error
  /\ (exists txt, castString (d_text d) = cast_string txt /\ txt <> "")
  /\ castString (d_sender d) <> cast_error
  /\ castString (d_to d) <> cast_error.
Proof.
  split.
  - intros (doc & c' & (Hv & Hup & _)%create_inr).
    apply validate_inr in Hv
      as (r & txt & sd & target & Hr & Ht & Hne & Hsd & Hto & _).
    split; [done|]. split; [apply (with_default_Some _ (Some "global")); by eexists|].
    split; [by exists txt|].
    split; [apply (with_default_Some _ (Some "Anonymous"))
           |apply (with_default_Some _ None)]; by eexists.
  - intros (Hup & Hr & (txt & Ht & Hne) & Hsd & Hto).
    apply (with_default_Some _ (Some "global")) in Hr as [r Hr].
    apply (with_default_Some _ (Some "Anonymous")) in Hsd as [sd Hsd].
    apply (with_default_Some _ None) in Hto as [target Hto].
    eexists _, _. apply create_inr. split; [|done].
    apply validate_inr. by exists r, txt, sd, target.
Qed.

(** No handler removes or rewrites a stored document. *)
Lemma handle_docs_prefix sid e env s :
  docs (messages s) `prefix_of` docs (messages (handle sid e env s).1).
Proof.
  assert (Hasync : forall a,
    docs (messages s) `prefix_of` docs (messages (run_async a env s).1)).
  { intros [d k|]; simpl; [|done].
    destruct (create d env (messages s)) as [[e'|doc] c'] eqn:Hc; simpl.
    - by apply create_inl in Hc as ->.
    - apply create_inr in Hc as (_ & _ & ->). simpl. by apply prefix_app_r. }
  destruct e; unfold handle; try apply Hasync; simpl; try done.
  unfold on_typing. by destruct (users s !! sid).
Qed.

Lemma run_docs_prefix evs s :
  docs (messages s) `prefix_of` docs (messages (run evs s)).
Proof.
  revert s. induction evs as [|[[sid e] env] evs IH]; intros s; simpl; [done|].
  destruct (exits _); [apply handle_docs_prefix|].
  etrans; [apply handle_docs_prefix|apply IH].
Qed.

End Store.

(** ** The history query *)

Section History.

#[local] Instance newer_first_total : Total newer_first.
Proof. intros a b. unfold newer_first. lia. Qed.

#[local] Instance older_first_trans : Transitive older_first.
Proof. intros a b c. unfold older_first. lia. Qed.

#[local] Instance newer_first_trans : Transitive newer_first.
Proof. intros a b c. unfold newer_first. lia. Qed.




Lemma history_room_truthy q_room : truthy (history_room q_room) = true.
Proof.
  unfold history_room, or_else. by destruct (truthy q_room) eqn:Hq.
Qed.

Lemma string_room_nonempty q_room r : string_room q_room = Some r -> r <> "".
Proof.
  unfold string_room. pose proof (history_room_truthy q_room) as Ht.
  destruct (history_room q_room); try done. intros [= ->] ->. done.
Qed.


Lemma string_room_falsy q_room :
  truthy q_room = false -> string_room q_room = Some "global".
Proof. intros Hq. unfold string_room, history_room, or_else. by rewrite Hq. Qed.



(** The room the route settles on is never falsy, so the query is always
    [{ room }]. *)
Lemma get_api_messages_up op q_limit q_room c :
  get_api_messages op q_limit q_room true c =
  match find_any op (Some (history_room q_room)) c with
  | Some found =>
      res_json (reverse (limit (history_limit q_limit)
                  (sort_createdAt_desc found)))
  | None => res_status_500
  end.
Proof. unfold get_api_messages. by rewrite history_room_truthy. Qed.

(** With MongoDB up and a string for a room, the route answers with a
    list of that room's messages. *)
Lemma get_api_messages_room op q_limit q_room r c :
  string_room q_room = Some r ->
  get_api_messages op q_limit q_room true c =
  res_json (reverse (limit (history_limit q_limit)
              (sort_createdAt_desc (find (Some r) c)))).
Proof.
  intros Hr. rewrite get_api_messages_up. unfold string_room in Hr.
  destruct (history_room q_room); try done. by injection Hr as ->.
Qed.



Lemma limit_covering n l :
  (length l <= Z.to_nat (Z.abs n))%nat -> limit n l = l.
Proof.
  intros Hl. unfold limit. destruct (n =? 0); [done|]. by apply take_ge.
Qed.

Lemma limit_prefix n l : limit n l `prefix_of` l.
Proof.
  unfold limit. destruct (n =? 0); [done|]. apply prefix_take.
Qed.

Lemma elem_of_find query c d :
  d ∈ find query c <-> matches query d /\ d ∈ docs c.
Proof. apply list_elem_of_filter. Qed.

Lemma elem_of_sorted l d : d ∈ sort_createdAt_desc l <-> d ∈ l.
Proof. unfold sort_createdAt_desc. by rewrite merge_sort_Permutation. Qed.


End History.

(** ** Further facts on runs, the store and casts *)

Lemma reachable_run evs s : reachable s -> reachable (run evs s).
Proof.
  revert s. induction evs as [|[[sid e] env] evs IH]; intros s Hs; [done|].
  simpl. destruct (exits _); [by constructor|]. apply IH. by constructor.
Qed.

Lemma create_total d env c :
  (exists doc c', create d env c = (inr doc, c'))
  \/ (exists err, create d env c = (inl err, c)).
Proof.
  destruct (create d env c) as [[err|doc] c'] eqn:Hc.
  - right. exists err. by rewrite (create_inl _ _ _ _ _ Hc).
  - left. by exists doc, c'.
Qed.

Lemma server_eta s : mkServer (users s) (typingUsers s) (messages s) = s.
Proof. by destruct s. Qed.

(** A truthy value is neither [undefined] nor [null]: its cast fails or
    gives a string, so no schema default applies to it. *)
Lemma castString_truthy v :
  truthy v = true ->
  castString v = cast_error \/ exists str, castString v = cast_string str.
Proof.
  destruct v as [| |b|n|str|items|props]; simpl; try done; eauto.
  intros _. destruct (assoc "_id" props); eauto.
  destruct (String.eqb _ ""); eauto.
Qed.

(** * Properties *)

(** ** C1: persist, then broadcast *)




(** ** C2: a failed save *)

(** C2: when [Message.create] fails inside a send handler, public or
    private, the handler only writes the error to the console: the server
    state (both registries and the collection) is what it was, nothing is
    emitted to any connection, the handler's promise is not rejected, and
    every history query answers as before the event. *)
Theorem failed_append_is_swallowed (sid : string) (e : Event) (env : Env)
    (s : Server) (d : Draft) (k : CreateError + Doc -> list Effect)
    (err : CreateError) (connected : list string) :
  async_handler sid e s = Some (await_create d k) ->
  (create d env (messages s)).1 = inl err ->
  let s' := (handle sid e env s).1 in
  let out := (handle sid e env s).2 in
  s' = s
  /\ (out = [ console_error (error_saving_public err) ]
      \/ out = [ console_error (error_saving_private err) ])
  /\ Forall (fun eff => receivers connected sid eff = []) out
  /\ (unhandled_rejection ∉ out)
  /\ forall op q_limit q_room up,
       get_api_messages op q_limit q_room up (messages s')
       = get_api_messages op q_limit q_room up (messages s).
Proof.
  intros Ha Hc.
  destruct (create d env (messages s)) as [r c'] eqn:Hcr. simpl in Hc. subst r.
  pose proof (create_inl _ _ _ _ _ Hcr) as ->.
  assert (Hrun : run_async (await_create d k) env s = (s, k (inl err))).
  { simpl. rewrite Hcr. by rewrite server_eta. }
  destruct e; simpl in Ha; try done.
  - injection Ha as <- <-. unfold handle, on_send_message in *. rewrite Hrun.
    simpl. repeat split; auto. not_listed.
  - unfold on_private_message in Ha. unfold handle, on_private_message.
    destruct (nullish payload); [done|]. injection Ha as <- <-. rewrite Hrun.
    simpl. repeat split; auto. not_listed.
Qed.

Lemma failed_append_is_swallowed_witness :
  (create (public_message "a" hi_global alice_and_bob) (outage 5)
     (messages alice_and_bob)).1 = inl StorageUnavailable
  /\ (handle "a" (ev_send_message hi_global) (outage 5) alice_and_bob).1
     = alice_and_bob.
Proof.
  split; [reflexivity|].
  exact (proj1 (failed_append_is_swallowed "a" (ev_send_message hi_global)
                  (outage 5) alice_and_bob _ _ StorageUnavailable []
                  eq_refl eq_refl)).
Defined.

(** ** C3: empty text *)

(** C3 as stated fails: [text] is [required] in the schema, and Mongoose's
    required check on a string rejects the empty one. A draft with empty
    text is refused, and a public send with neither [message] nor [text]
    is logged as a failed save: nothing is stored, nothing is emitted. *)
Lemma empty_text_is_rejected :
  create (mkDraft (JStr "global") (JStr "") (JStr "Alice") "a" JNull false)
    (at_time 5) empty_collection
  = (inl (Required "text"), empty_collection)
  /\ handle "a" (ev_send_message (JObj [])) (at_time 5) alice_and_bob
     = (alice_and_bob, [ console_error (error_saving_public (Required "text")) ]).
Proof. split; reflexivity. Qed.

(** C3 (amended): a public send whose payload has neither [message] nor
    [text] defaults the text to the empty string, which [Message.create]
    rejects: the handler logs the error, stores nothing and emits nothing.
    Any draft with empty text is rejected and leaves the collection as it
    was; [Message.create] succeeds exactly when MongoDB answers, the text
    casts to a non-empty string and room, sender and to pass their casts. *)
Theorem missing_text_is_not_persisted (sid : string) (md : JsVal) (env : Env)
    (s : Server) :
  nullish (opt_get md "message") = true ->
  nullish (opt_get md "text") = true ->
  d_text (public_message sid md s) = JStr ""
  /\ (exists err,
        handle sid (ev_send_message md) env s
        = (s, [ console_error (error_saving_public err) ]))
  /\ (forall d env' c,
        d_text d = JStr "" -> exists err, create d env' c = (inl err, c))
  /\ (forall d env' c,
        (exists doc c', create d env' c = (inr doc, c')) <->
        db_up env' = true
        /\ castString (d_room d) <> cast_error
        /\ (exists txt, castString (d_text d) = cast_string txt /\ txt <> "")
        /\ castString (d_sender d) <> cast_error
        /\ castString (d_to d) <> cast_error).
Proof.
  intros Hm Ht.
  assert (Hempty : forall d env' c,
            d_text d = JStr "" -> exists err, create d env' c = (inl err, c)).
  { intros d env' c Hd. destruct (create_total d env' c) as [Hok|Herr]; [|done].
    apply create_succeeds_iff in Hok as (_ & _ & (txt & Hcast & Hne) & _).
    rewrite Hd in Hcast. simpl in Hcast. congruence. }
  assert (Htext : d_text (public_message sid md s) = JStr "").
  { unfold public_message, coalesce. simpl. by rewrite Hm, Ht. }
  split; [done|]. split; [|split; [done|apply create_succeeds_iff]].
  destruct (Hempty (public_message sid md s) env (messages s) Htext) as [err Herr].
  exists err. unfold handle, on_send_message, run_async. rewrite Herr.
  by rewrite server_eta.
Qed.

Lemma missing_text_is_not_persisted_witness :
  exists err,
    handle "a" (ev_send_message (JObj [("room", JStr "global")])) (at_time 5)
      alice_and_bob
    = (alice_and_bob, [ console_error (error_saving_public err) ]).
Proof.
  exact (proj1 (proj2 (missing_text_is_not_persisted "a"
                         (JObj [("room", JStr "global")]) (at_time 5)
                         alice_and_bob eq_refl eq_refl))).
Defined.

(** ** C4: the history query *)




(** ** C5: joining twice *)

(** C5: a second [user_join] on the same socket overwrites the first: after
    two joins of [c1] the registry holds the second name under [c1], and the
    listing of all participants has exactly one entry whose id is [c1]. *)
Theorem join_twice_overwrites (s : Server) (c1 : string) (p1 p2 : JsVal)
    (env1 env2 : Env) :
  reachable s ->
  let s1 := (handle c1 (ev_user_join p1) env1 s).1 in
  let s2 := (handle c1 (ev_user_join p2) env2 s1).1 in
  users s2 !! c1 = Some (mkUser (join_username p2) c1)
  /\ length (filter (fun u => id u = c1) (Object_values (users s2))) = 1%nat.
Proof.
  intros Hs s1 s2. split.
  - subst s1 s2. simpl. apply lookup_insert_eq.
  - assert (Hids : ids_match_keys (users s1))
      by (apply handle_ids_match_keys; by apply reachable_ids_match_keys).
    subst s2. simpl users.
    rewrite Object_values_insert, filter_cons_True by done.
    by rewrite no_entry_after_delete.
Qed.

Lemma join_twice_overwrites_witness :
  reachable (init empty_collection)
  /\ users (run [ ("c1", ev_user_join (JStr "Alice"), at_time 1);
                  ("c1", ev_user_join (JStr "Bob"), at_time 2) ]
              (init empty_collection)) !! "c1"
     = Some (mkUser (JStr "Bob") "c1").
Proof.
  split; [constructor|].
  apply (join_twice_overwrites (init empty_collection) "c1"
           (JStr "Alice") (JStr "Bob") (at_time 1) (at_time 2)).
  constructor.
Defined.

(** ** C6: disconnect *)

(** C6: on [disconnect], [user_left] is emitted exactly when the socket had
    a registered participant; in every case the socket's entries are deleted
    from [users] and [typingUsers], and the refreshed [user_list] and
    [typing_users] are emitted last, each to every connection. *)
Theorem disconnect_cleans_up (sid : string) (env : Env) (s : Server)
    (connected : list string) :
  let s' := (handle sid ev_disconnect env s).1 in
  let out := (handle sid ev_disconnect env s).2 in
  let refreshed := [ io_emit (user_list (Object_values (users s')));
                     io_emit (typing_users (Object_values (typingUsers s'))) ] in
  ((exists u, io_emit (user_left u) ∈ out) <-> is_Some (users s !! sid))
  /\ users s' = delete sid (users s)
  /\ typingUsers s' = delete sid (typingUsers s)
  /\ users s' !! sid = None
  /\ typingUsers s' !! sid = None
  /\ messages s' = messages s
  /\ (exists left, out = left ++ refreshed
        /\ left = match users s !! sid with
                  | Some u => [ io_emit (user_left (mkUser (username u) sid));
                                console_log (left_the_chat (username u)) ]
                  | None => []
                  end)
  /\ Forall (fun e => receivers connected sid e = connected) refreshed.
Proof.
  simpl. repeat split; try apply lookup_delete_eq.
  - intros [u Hu]. destruct (users s !! sid); [done|].
    simpl in Hu. exfalso. revert Hu. not_listed.
  - intros [u ->]. eexists. simpl. left.
  - eexists. split; reflexivity.
  - repeat constructor.
Qed.

(** ** C7: typing *)

(** C7: [typing] from a socket without a registered participant changes
    nothing and emits nothing; from a registered one it sets the mark under
    the socket id when [isTyping] is true and deletes it when false, and in
    both cases emits the full [typing_users] list to every connection. *)
Theorem typing_sets_or_clears (sid : string) (env : Env) (s : Server)
    (connected : list string) :
  match users s !! sid with
  | None => forall v, handle sid (ev_typing v) env s = (s, [])
  | Some u =>
      forall b : bool,
        let s' := (handle sid (ev_typing (JBool b)) env s).1 in
        let out := (handle sid (ev_typing (JBool b)) env s).2 in
        typingUsers s' = (if b then <[sid := username u]> (typingUsers s)
                          else delete sid (typingUsers s))
        /\ typingUsers s' !! sid = (if b then Some (username u) else None)
        /\ users s' = users s
        /\ messages s' = messages s
        /\ out = [ io_emit (typing_users (Object_values (typingUsers s'))) ]
        /\ Forall (fun e => receivers connected sid e = connected) out
  end.
Proof.
  destruct (users s !! sid) as [u|] eqn:Hu.
  - intros b. simpl. unfold on_typing. rewrite Hu. simpl.
    destruct b; simpl; repeat split;
      try apply lookup_insert_eq; try apply lookup_delete_eq;
      repeat constructor.
  - intros v. simpl. unfold on_typing. by rewrite Hu.
Qed.

(** ** C8: private messages *)

(** C8: when [Message.create] succeeds in a private send, the handler emits
    the stored document's projection twice, once to the room named by [to]
    and once to the sending socket, and never with [io.emit]. Whoever
    receives it is the sender or the socket whose id is [to]; a connected
    target other than the sender does receive it, and so does the sender. *)
Theorem private_send_reaches_target_and_sender (sid : string) (payload : JsVal)
    (env : Env) (s : Server) (saved : Doc) (coll' : Collection)
    (connected : list string) :
  nullish payload = false ->
  create (private_messageData sid payload s) env (messages s) = (inr saved, coll') ->
  let out := (handle sid (ev_private_message payload) env s).2 in
  let pp := private_payload saved in
  let p := private_message pp in
  let target := opt_get payload "to" in
  out = [ db_insert saved; socket_to_emit target p; socket_emit p ]
  /\ docs (messages (handle sid (ev_private_message payload) env s).1)
     = docs (messages s) ++ [saved]
  /\ (prv_id pp = _id saved /\ prv_sender pp = sender saved
      /\ prv_senderId pp = senderId saved /\ prv_to pp = to saved
      /\ prv_message pp = text saved /\ prv_isPrivate pp = isPrivate saved
      /\ prv_timestamp pp = createdAt saved)
  /\ (forall q, io_emit q ∉ out)
  /\ (forall eff c3, eff ∈ out -> c3 ∈ receivers connected sid eff ->
        c3 = sid \/ target = JStr c3)
  /\ (forall c2, target = JStr c2 ->
        to saved = Some c2
        /\ (c2 ∈ connected -> c2 <> sid ->
            c2 ∈ receivers connected sid (socket_to_emit target p)))
  /\ (sid ∈ connected -> sid ∈ receivers connected sid (socket_emit p)).
Proof.
  intros Hp Hc out pp p target.
  assert (Hh : handle sid (ev_private_message payload) env s
               = (mkServer (users s) (typingUsers s) coll',
                  [ db_insert saved; socket_to_emit target p; socket_emit p ])).
  { unfold handle, on_private_message, run_async. by rewrite Hp, Hc. }
  assert (Hout : out = [ db_insert saved; socket_to_emit target p; socket_emit p ])
    by (subst out; by rewrite Hh).
  assert (Hcast : with_default (castString target) None = Some (to saved)).
  { apply create_inr in Hc as (Hv & _).
    by apply validate_inr in Hv as (? & ? & ? & ? & _ & _ & _ & _ & Hto & ->). }
  rewrite Hout. split; [done|]. split.
  { rewrite Hh. by apply create_inr in Hc as (_ & _ & ->). }
  split; [done|]. split; [intros q; not_listed|].
  split; [|split].
  - intros eff c3 Heff Hrcv.
    repeat (apply elem_of_cons in Heff as [->|Heff]);
      [| | |by apply elem_of_nil in Heff]; simpl in Hrcv.
    + by apply elem_of_nil in Hrcv.
    + apply list_elem_of_filter in Hrcv as [[_ Hroom] _]. right.
      destruct target; simpl in *; try discriminate Hcast;
        try by apply elem_of_nil in Hroom.
      by apply list_elem_of_singleton in Hroom as ->.
    + apply list_elem_of_filter in Hrcv as [-> _]. by left.
  - intros c2 Htarget. rewrite Htarget in Hcast. simpl in Hcast.
    split; [congruence|]. intros Hin Hne. rewrite Htarget. simpl.
    apply list_elem_of_filter. split; [|done].
    split; [done|]. by apply list_elem_of_singleton.
  - intros Hin. simpl. by apply list_elem_of_filter.
Qed.

Lemma private_send_reaches_target_and_sender_witness :
  let out := (handle "a" (ev_private_message psst_to_b) (at_time 5)
                alice_and_bob).2 in
  Forall (fun eff => receivers ["a"; "b"; "c"] "a" eff ⊆ ["a"; "b"]) out.
Proof.
  intros out.
  pose proof (private_send_reaches_target_and_sender "a" psst_to_b (at_time 5)
                alice_and_bob
                {| _id := 0; room := None; text := "psst"; sender := Some "Alice";
                   senderId := "a"; to := Some "b"; isPrivate := true;
                   createdAt := 5 |}
                (mkCollection
                   [ {| _id := 0; room := None; text := "psst";
                        sender := Some "Alice"; senderId := "a"; to := Some "b";
                        isPrivate := true; createdAt := 5 |} ] 1)
                ["a"; "b"; "c"] eq_refl eq_refl) as (_ & _ & _ & _ & H & _).
  apply Forall_forall. intros eff Heff c3 Hc3.
  destruct (H eff c3 Heff Hc3) as [->|[= <-]]; [left|right; left].
Defined.

(** ** C9: the sender name *)

(** C9 as stated fails: socket ["a"] is registered with the empty string
    as its name, yet the message it sends is stored with sender
    ['Anonymous'], which is not the registered name. *)
Lemma registered_nameless_sender_is_anonymous :
  users nameless_joined !! "a" = Some (mkUser (JStr "") "a")
  /\ (handle "a" (ev_send_message hi_global) (at_time 5) nameless_joined).2
     = [ db_insert (a_doc 0 (Some "global") "hi" "Anonymous" 5);
         io_emit (receive_message
                    (public_payload (a_doc 0 (Some "global") "hi" "Anonymous" 5))) ].
Proof. split; reflexivity. Qed.

(** C9 (amended): in a public or private send that is stored, the sender
    field is the registered username when that username is truthy (for a
    string: non-empty), cast to a string; it is ['Anonymous'] when the
    socket has no participant entry or its username is falsy (undefined,
    null, the empty string, 0 or false). *)
Theorem sender_is_username_or_anonymous (sid : string) (e : Event) (env : Env)
    (s : Server) (d : Draft) (k : CreateError + Doc -> list Effect)
    (saved : Doc) (coll' : Collection) :
  async_handler sid e s = Some (await_create d k) ->
  create d env (messages s) = (inr saved, coll') ->
  d_sender d = sender_name sid s
  /\ match users s !! sid with
     | None => sender saved = Some "Anonymous"
     | Some u =>
         if truthy (username u)
         then castString (username u) = cast_string (default "" (sender saved))
              /\ (forall name, username u = JStr name ->
                    name <> "" /\ sender saved = Some name)
         else sender saved = Some "Anonymous"
     end.
Proof.
  intros Ha Hc.
  assert (Hd : d_sender d = sender_name sid s).
  { destruct e; simpl in Ha; try done.
    - by injection Ha as <- _.
    - unfold on_private_message in Ha. destruct (nullish payload); [done|].
      by injection Ha as <- _. }
  split; [done|].
  apply create_inr in Hc as (Hv & _).
  apply validate_inr in Hv as (? & ? & sd & ? & _ & _ & _ & Hsd & _ & ->).
  rewrite Hd in Hsd. unfold sender_name, or_else in Hsd. simpl sender.
  destruct (users s !! sid) as [u|]; simpl in Hsd; [|congruence].
  destruct (truthy (username u)) eqn:Htruthy; simpl in Hsd; [|congruence].
  split.
  - destruct (castString_truthy _ Htruthy) as [Hcast|[str Hcast]];
      rewrite Hcast in Hsd; simpl in Hsd; [done|].
    rewrite Hcast. by injection Hsd as <-.
  - intros name Hname. rewrite Hname in *. simpl in *. split; [|congruence].
    intros ->. done.
Qed.

Lemma sender_is_username_or_anonymous_witness :
  users alice_and_bob !! "a" = Some (mkUser (JStr "Alice") "a")
  /\ create (public_message "a" hi_global alice_and_bob) (at_time 5)
       (messages alice_and_bob)
     = (inr (a_doc 0 (Some "global") "hi" "Alice" 5),
        mkCollection [a_doc 0 (Some "global") "hi" "Alice" 5] 1)
  /\ sender (a_doc 0 (Some "global") "hi" "Alice" 5) = Some "Alice".
Proof.
  split; [reflexivity|]. split; [reflexivity|].
  pose proof (sender_is_username_or_anonymous "a" (ev_send_message hi_global)
                (at_time 5) alice_and_bob _ _
                (a_doc 0 (Some "global") "hi" "Alice" 5)
                (mkCollection [a_doc 0 (Some "global") "hi" "Alice" 5] 1)
                eq_refl eq_refl) as [_ H].
  exact (proj2 (proj2 H "Alice" eq_refl)).
Defined.

(** ** C10: typing marks and participants *)

(** C10: in every state the server reaches, each socket id with a typing
    mark also has a participant entry, and whatever event comes next keeps
    it so. *)
Theorem typing_mark_needs_participant (s : Server) :
  reachable s ->
  typing_within_presence s
  /\ forall sid e env, typing_within_presence (handle sid e env s).1.
Proof.
  intros Hs.
  assert (Hinv : typing_within_presence s).
  { induction Hs as [c|s sid e env _ IH].
    - intros k [v Hk]. simpl in Hk. by rewrite lookup_empty in Hk.
    - by apply handle_typing_within_presence. }
  split; [done|]. intros. by apply handle_typing_within_presence.
Qed.

Lemma typing_mark_needs_participant_witness :
  typingUsers alice_typing !! "a" = Some (JStr "Alice")
  /\ reachable alice_typing
  /\ typing_within_presence alice_typing.
Proof.
  assert (Hr : reachable alice_typing).
  { apply (reachable_step _ "a" (ev_typing (JBool true)) (at_time 2)).
    apply (reachable_step _ "a" (ev_user_join (JStr "Alice")) (at_time 1)).
    apply reachable_init. }
  split; [reflexivity|]. split; [exact Hr|].
  exact (proj1 (typing_mark_needs_participant alice_typing Hr)).
Defined.

(** * Further properties of the handlers *)

(** ** Events and the registries *)




Lemma handle_docs_length sid e env s :
  (length (docs (messages (handle sid e env s).1))
   <= S (length (docs (messages s))))%nat.
Proof.
  assert (Hasync : forall a,
    (length (docs (messages (run_async a env s).1))
     <= S (length (docs (messages s))))%nat).
  { intros [d k|]; simpl; [|lia].
    destruct (create d env (messages s)) as [[e'|doc] c'] eqn:Hc; simpl.
    - apply create_inl in Hc as ->. lia.
    - apply create_inr in Hc as (_ & _ & ->). simpl. rewrite length_app. simpl. lia. }
  destruct e; unfold handle; try apply Hasync; simpl; try lia.
  unfold on_typing. destruct (users s !! sid); simpl; lia.
Qed.

(** X3: the collection is append-only. Along any run the documents stored
    before stay where they are, unchanged; the run adds at most one document
    per event, and [user_join], [typing] and [disconnect] add none. *)
Theorem stored_messages_are_kept (evs : list (string * Event * Env))
    (s : Server) :
  docs (messages s) `prefix_of` docs (messages (run evs s))
  /\ (length (docs (messages (run evs s)))
      <= length (docs (messages s)) + length evs)%nat
  /\ (forall sid e env, async_handler sid e s = None ->
        messages (handle sid e env s).1 = messages s).
Proof.
  split; [apply run_docs_prefix|]. split.
  - revert s. induction evs as [|[[sid e] env] evs IH]; intros s; simpl; [lia|].
    specialize (IH (handle sid e env s).1).
    pose proof (handle_docs_length sid e env s).
    destruct (exits _); lia.
  - intros sid e env Ha. destruct e; simpl in *; try done.
    unfold on_typing. by destruct (users s !! sid).
Qed.



(** ** Private messages and the history *)

Lemma history_body_rooms q_limit r c d :
  d ∈ reverse (limit (history_limit q_limit)
                 (sort_createdAt_desc (find (Some r) c))) ->
  room d = Some r /\ d ∈ docs c.
Proof.
  rewrite elem_of_reverse. intros Hd.
  eapply elem_of_prefix in Hd; [|apply limit_prefix].
  rewrite elem_of_sorted, elem_of_find in Hd. by destruct Hd.
Qed.

(** X5: a private message is stored without a room and flagged private,
    and no history query whose room parameter is a string or absent, now or
    after any further events, returns it. *)
Theorem private_messages_stay_out_of_history (sid : string) (payload : JsVal)
    (env : Env) (s : Server) (saved : Doc) (coll' : Collection) :
  create (private_messageData sid payload s) env (messages s) = (inr saved, coll') ->
  room saved = None
  /\ isPrivate saved = true
  /\ senderId saved = sid
  /\ forall op later q_limit q_room up body,
       is_Some (string_room q_room) ->
       get_api_messages op q_limit q_room up
         (messages (run later (handle sid (ev_private_message payload) env s).1))
       = res_json body ->
       saved ∉ body.
Proof.
  intros Hc. apply create_inr in Hc as (Hv & _).
  apply validate_inr in Hv as (r & ? & ? & ? & Hr & _ & _ & _ & _ & ->).
  simpl in Hr. injection Hr as <-. simpl.
  split; [done|]. split; [done|]. split; [done|].
  intros op later q_limit q_room up body [r Hroom] Hbody Hin. destruct up.
  - rewrite (get_api_messages_room _ _ _ _ _ Hroom) in Hbody.
    injection Hbody as <-.
    by apply history_body_rooms in Hin as [Hr _].
  - discriminate Hbody.
Qed.

Lemma private_messages_stay_out_of_history_witness :
  exists saved coll',
    create (private_messageData "a" psst_to_b alice_and_bob) (at_time 5)
      (messages alice_and_bob) = (inr saved, coll')
    /\ room saved = None
    /\ get_api_messages no_operator_filters JUndefined JUndefined true coll'
       = res_json [].
Proof.
  eexists _, _. split; [reflexivity|]. split; [|reflexivity].
  exact (proj1 (private_messages_stay_out_of_history "a" psst_to_b (at_time 5)
                  alice_and_bob _ _ eq_refl)).
Defined.

(** In a list without repetition, the entries equal to [x] that satisfy
    [Q] number one if [x] is listed and satisfies [Q], and none otherwise. *)
Lemma length_filter_eq_NoDup (Q : string -> Prop) `{forall c, Decision (Q c)}
    (x : string) (l : list string) :
  NoDup l ->
  length (filter (fun c => c = x /\ Q c) l)
  = if decide (x ∈ l /\ Q x) then 1%nat else 0%nat.
Proof.
  induction 1 as [|c l Hc Hl IH].
  - rewrite filter_nil. destruct (decide (x ∈ [] /\ Q x)) as [[Hin _]|_]; [|done].
    by apply elem_of_nil in Hin.
  - rewrite filter_cons.
    destruct (decide (c = x /\ Q c)) as [[-> HQ]|Hno]; cbn [length]; rewrite IH;
      destruct (decide (x ∈ l /\ Q x)) as [[Hin HQ']|Hno'];
      destruct (decide (x ∈ _ :: l /\ Q x)) as [[Hin'' HQ'']|Hno''];
      try done.
    + exfalso. apply Hno''. split; [left|done].
    + exfalso. apply Hno''. split; [by right|done].
    + exfalso. apply elem_of_cons in Hin'' as [->|Hin''];
        [by apply Hno|by apply Hno'].
Qed.

Lemma copies_app x l1 l2 : copies x (l1 ++ l2) = (copies x l1 + copies x l2)%nat.
Proof. unfold copies. by rewrite filter_app, length_app. Qed.

(** X6: a stored private message addressed to socket [c2] reaches the
    sender exactly once and a connected [c2] exactly once (once in all when
    [c2] is the sender), and reaches nobody else. *)
Theorem private_message_is_delivered_once (sid c2 : string) (payload : JsVal)
    (env : Env) (s : Server) (saved : Doc) (coll' : Collection)
    (connected : list string) :
  nullish payload = false ->
  opt_get payload "to" = JStr c2 ->
  create (private_messageData sid payload s) env (messages s) = (inr saved, coll') ->
  NoDup connected ->
  let got := deliveries connected sid
               (handle sid (ev_private_message payload) env s).2 in
  (sid ∈ connected -> copies sid got = 1%nat)
  /\ (c2 ∈ connected -> copies c2 got = 1%nat)
  /\ (forall x, x <> sid -> x <> c2 -> copies x got = 0%nat)
  /\ (forall x, x ∉ connected -> copies x got = 0%nat).
Proof.
  intros Hp Hto Hc Hnd got.
  assert (Hgot : forall x,
            copies x got
            = ((if decide (x ∈ connected /\ x <> sid /\ x ∈ [c2]) then 1 else 0)
               + (if decide (x ∈ connected /\ x = sid) then 1 else 0))%nat).
  { intros x. subst got. unfold handle, on_private_message, run_async.
    rewrite Hp, Hc, Hto. unfold deliveries. simpl.
    rewrite app_nil_r, copies_app. unfold copies.
    rewrite !list_filter_filter.
    by rewrite !length_filter_eq_NoDup. }
  repeat split.
  - intros Hin. rewrite Hgot.
    rewrite decide_False, decide_True; [done|done|]. by intros (_ & ? & _).
  - intros Hin. rewrite Hgot. destruct (decide (c2 = sid)) as [->|Hne].
    + rewrite decide_False, decide_True; [done|done|]. by intros (_ & ? & _).
    + rewrite decide_True, decide_False; [done| |].
      * by intros [_ ?].
      * split; [done|]. split; [done|]. by apply list_elem_of_singleton.
  - intros x Hx1 Hx2. rewrite Hgot. rewrite !decide_False; [done| |].
    + by intros [_ ?].
    + intros (_ & _ & ?%list_elem_of_singleton). done.
  - intros x Hx. rewrite Hgot. rewrite !decide_False; [done| |]; by intros [? _].
Qed.

Lemma private_message_is_delivered_once_witness :
  let got := deliveries ["a"; "b"; "c"] "a"
               (handle "a" (ev_private_message psst_to_b) (at_time 5)
                  alice_and_bob).2 in
  copies "a" got = 1%nat /\ copies "b" got = 1%nat /\ copies "c" got = 0%nat.
Proof.
  intros got.
  assert (Hnd : NoDup ["a"; "b"; "c"]).
  { repeat constructor; not_listed. }
  pose proof (private_message_is_delivered_once "a" "b" psst_to_b (at_time 5)
                alice_and_bob _ _ ["a"; "b"; "c"] eq_refl eq_refl eq_refl Hnd)
    as (Ha & Hb & Hc & _).
  split; [apply Ha; left|]. split; [apply Hb; right; left|].
  apply Hc; discriminate.
Defined.

(** X7: a stored public message is delivered once to every connected
    socket, the sender included, whatever its room and whether or not the
    receivers have joined. *)
Theorem public_message_reaches_everyone (sid : string) (md : JsVal)
    (env : Env) (s : Server) (saved : Doc) (coll' : Collection)
    (connected : list string) :
  create (public_message sid md s) env (messages s) = (inr saved, coll') ->
  deliveries connected sid (handle sid (ev_send_message md) env s).2 = connected.
Proof.
  intros Hc. unfold handle, on_send_message, run_async. rewrite Hc.
  unfold deliveries. simpl. by rewrite app_nil_r.
Qed.

Lemma public_message_reaches_everyone_witness :
  deliveries ["a"; "b"; "z"] "a"
    (handle "a" (ev_send_message hi_empty_room) (at_time 5) alice_and_bob).2
  = ["a"; "b"; "z"].
Proof.
  exact (public_message_reaches_everyone "a" hi_empty_room (at_time 5)
           alice_and_bob _ _ ["a"; "b"; "z"] eq_refl).
Defined.

(** ** Which messages the history returns *)



(** ** Composing registry events *)




(** X11: [disconnect] is idempotent: a second one for the same socket
    leaves the state of the first, emits no [user_left], and still emits the
    two refreshed lists. *)
Theorem disconnect_twice (sid : string) (env1 env2 : Env) (s : Server) :
  let s1 := (handle sid ev_disconnect env1 s).1 in
  handle sid ev_disconnect env2 s1
  = (s1, [ io_emit (user_list (Object_values (users s1)));
           io_emit (typing_users (Object_values (typingUsers s1))) ]).
Proof.
  simpl. unfold on_disconnect. simpl.
  by rewrite lookup_delete_eq, !delete_delete_eq.
Qed.

(** X12: for a socket without a typing mark, [typing(true)] followed by
    [typing(false)] gives back the state as it was, registered or not; and
    a repeated [typing(true)] changes nothing further. *)
Theorem typing_on_off_restores (sid : string) (env1 env2 : Env) (s : Server) :
  typingUsers s !! sid = None ->
  run [ (sid, ev_typing (JBool true), env1);
        (sid, ev_typing (JBool false), env2) ] s = s
  /\ run [ (sid, ev_typing (JBool true), env1);
           (sid, ev_typing (JBool true), env2) ] s
     = run [ (sid, ev_typing (JBool true), env1) ] s.
Proof.
  intros Ht. simpl. unfold on_typing.
  destruct (users s !! sid) as [u|] eqn:Hu; simpl; rewrite Hu; simpl.
  - rewrite delete_insert_eq, delete_id, insert_insert_eq by done.
    split; [apply server_eta|done].
  - done.
Qed.

Lemma typing_on_off_restores_witness :
  run [ ("b", ev_typing (JBool true), at_time 3);
        ("b", ev_typing (JBool false), at_time 4) ] alice_and_bob
  = alice_and_bob.
Proof.
  exact (proj1 (typing_on_off_restores "b" (at_time 3) (at_time 4)
                  alice_and_bob eq_refl)).
Defined.

(** ** The presence listing *)

Lemma ids_of_values (l : list (string * User)) :
  (forall k u, (k, u) ∈ l -> id u = k) -> id <$> l.*2 = l.*1.
Proof.
  induction l as [|[k u] l IH]; intros Hl; [done|]. csimpl.
  rewrite (Hl k u) by left. f_equal. apply IH.
  intros k' u' Hin. apply Hl. by right.
Qed.

(** X13: in every state the server reaches, [GET /api/users] lists each
    registered socket exactly once: no two listed participants share an id,
    a participant is listed exactly when it is the entry stored under its
    id, and after a socket's [disconnect] no listed participant has its id. *)
Theorem api_users_lists_each_socket_once (s : Server) :
  reachable s ->
  NoDup (id <$> get_api_users s)
  /\ (forall u, u ∈ get_api_users s <-> users s !! id u = Some u)
  /\ length (get_api_users s) = size (users s)
  /\ (forall sid env u,
        u ∈ get_api_users (handle sid ev_disconnect env s).1 -> id u <> sid).
Proof.
  intros Hs. pose proof (reachable_ids_match_keys s Hs) as Hids.
  unfold get_api_users. repeat split.
  - unfold Object_values. rewrite ids_of_values.
    + apply NoDup_fst_map_to_list.
    + intros k u Hin. apply Hids. by apply elem_of_map_to_list.
  - intros [k Hk]%elem_of_Object_values. by rewrite (Hids k u Hk).
  - intros Hu. apply elem_of_Object_values. by exists (id u).
  - unfold Object_values. by rewrite length_fmap, length_map_to_list.
  - intros sid env u [k Hk]%elem_of_Object_values. simpl in Hk.
    apply lookup_delete_Some in Hk as [Hne Hk]. by rewrite (Hids k u Hk).
Qed.

Lemma api_users_lists_each_socket_once_witness :
  reachable alice_and_bob /\ length (get_api_users alice_and_bob) = 2%nat.
Proof.
  assert (Hr : reachable alice_and_bob).
  { apply (reachable_step _ "b" (ev_user_join (JObj [("username", JStr "Bob")]))
             (at_time 2)).
    apply (reachable_step _ "a" (ev_user_join (JStr "Alice")) (at_time 1)).
    apply reachable_init. }
  split; [exact Hr|].
  destruct (api_users_lists_each_socket_once alice_and_bob Hr)
    as (_ & _ & Hlen & _).
  rewrite Hlen. reflexivity.
Defined.


(** ** What a send stores *)

Lemma sender_name_truthy sid s : truthy (sender_name sid s) = true.
Proof.
  unfold sender_name, or_else.
  by destruct (truthy (match users s !! sid with
                       | Some u => username u
                       | None => JUndefined
                       end)) eqn:Ht.
Qed.

(** The room of a public draft is never [undefined] or [null], so a room
    that passes the cast is a string. *)
Lemma public_room_is_string sid md s r :
  with_default (castString (d_room (public_message sid md s))) (Some "global")
  = Some r ->
  exists str, r = Some str.
Proof.
  simpl. unfold coalesce. intros Hr.
  destruct (nullish (opt_get md "room")) eqn:Hn.
  - simpl in Hr. injection Hr as <-. by eexists.
  - destruct (opt_get md "room") as [| |b|n|str|items|props]; simpl in *;
      try done; try (injection Hr as <-; by eexists).
    destruct (assoc "_id" props); try done.
    destruct (String.eqb _ ""); try done. injection Hr as <-. by eexists.
Qed.

(** X15: in a stored public message the text is the payload's [message]
    when that is a string, else its [text]; the room is the payload's
    [room], or ['global'] when that is absent or null; the message has no
    target, is not private and carries the sending socket's id. *)
Theorem public_message_fields (sid : string) (md : JsVal) (env : Env)
    (s : Server) (saved : Doc) (coll' : Collection) :
  create (public_message sid md s) env (messages s) = (inr saved, coll') ->
  senderId saved = sid /\ to saved = None /\ isPrivate saved = false
  /\ text saved <> ""
  /\ (forall m, opt_get md "message" = JStr m -> text saved = m)
  /\ (forall t, nullish (opt_get md "message") = true ->
        opt_get md "text" = JStr t -> text saved = t)
  /\ (nullish (opt_get md "room") = true -> room saved = Some "global")
  /\ (forall r, opt_get md "room" = JStr r -> room saved = Some r)
  /\ (exists r, room saved = Some r).
Proof.
  intros Hc. apply create_inr in Hc as (Hv & _).
  apply validate_inr in Hv
    as (r & txt & sd & target & Hr & Ht & Hne & _ & Hto & ->).
  pose proof (public_room_is_string _ _ _ _ Hr) as [str Hstr].
  simpl in *. injection Hto as <-. unfold coalesce in *.
  repeat split; try done.
  - intros m Hm. rewrite Hm in Ht. simpl in Ht. congruence.
  - intros t Hm Htext. rewrite Hm, Htext in Ht. simpl in Ht. congruence.
  - intros Hroom. rewrite Hroom in Hr. simpl in Hr. congruence.
  - intros r' Hroom. rewrite Hroom in Hr. simpl in Hr. congruence.
  - by exists str.
Qed.

Lemma public_message_fields_witness :
  exists saved coll',
    create (public_message "a" (JObj [("text", JStr "yo")]) alice_and_bob)
      (at_time 5) (messages alice_and_bob) = (inr saved, coll')
    /\ text saved = "yo" /\ room saved = Some "global".
Proof.
  eexists _, _. split; [reflexivity|].
  destruct (public_message_fields "a" (JObj [("text", JStr "yo")]) (at_time 5)
              alice_and_bob _ _ eq_refl)
    as (_ & _ & _ & _ & _ & Htext & Hroom & _).
  split; [exact (Htext "yo" eq_refl eq_refl)|exact (Hroom eq_refl)].
Defined.

(** X16: with MongoDB up, a public send goes through (one document stored,
    one broadcast) whenever its [message] is a non-empty string, its [room]
    is a string or missing, and the sender has not joined or joined with a
    username that is a string or falsy. *)
Theorem public_send_succeeds (sid : string) (md : JsVal) (env : Env)
    (s : Server) (m : string) :
  db_up env = true ->
  opt_get md "message" = JStr m -> m <> "" ->
  nullish (opt_get md "room") = true \/ is_string (opt_get md "room") = true ->
  (forall u, users s !! sid = Some u ->
     is_string (username u) = true \/ truthy (username u) = false) ->
  exists saved,
    handle sid (ev_send_message md) env s
    = (mkServer (users s) (typingUsers s)
         {| docs := docs (messages s) ++ [saved];
            next_id := N.succ (next_id (messages s)) |},
       [ db_insert saved; io_emit (receive_message (public_payload saved)) ])
    /\ text saved = m.
Proof.
  intros Hup Hm Hne Hroom Huser.
  assert (Hok : exists doc c',
            create (public_message sid md s) env (messages s) = (inr doc, c')).
  { apply create_succeeds_iff. split; [done|]. simpl. unfold coalesce.
    rewrite Hm. simpl. split; [|split; [by exists m|split; [|done]]].
    - destruct Hroom as [->|Hs]; [done|].
      by destruct (opt_get md "room").
    - unfold sender_name, or_else.
      destruct (users s !! sid) as [u|] eqn:Hu; [|done].
      destruct (Huser u eq_refl) as [Hs| ->]; [|done].
      destruct (username u); try done. simpl. by destruct (negb _). }
  destruct Hok as (saved & c' & Hc). exists saved.
  pose proof Hc as (Hv & _ & ->)%create_inr.
  split.
  - unfold handle, on_send_message, run_async. by rewrite Hc.
  - apply validate_inr in Hv as (? & txt & ? & ? & _ & Ht & _ & _ & _ & ->).
    simpl in *. unfold coalesce in Ht. rewrite Hm in Ht. simpl in Ht. congruence.
Qed.

Lemma public_send_succeeds_witness :
  exists saved,
    (handle "a" (ev_send_message hi_global) (at_time 5) nameless_joined).2
    = [ db_insert saved; io_emit (receive_message (public_payload saved)) ]
    /\ text saved = "hi".
Proof.
  destruct (public_send_succeeds "a" hi_global (at_time 5) nameless_joined "hi"
              eq_refl eq_refl ltac:(discriminate) (or_intror eq_refl))
    as (saved & Hh & Ht).
  { intros u [= <-]. by left. }
  exists saved. split; [by rewrite Hh|exact Ht].
Defined.

(** A write takes the collection's next id and moves it on: if every
    stored id lies below the next id, the new document's id differs from
    all of them, and the same holds of the collection after the write. *)
Lemma create_ids_below d env c doc c' :
  create d env c = (inr doc, c') ->
  ids_below c ->
  (forall d', d' ∈ docs c -> _id d' <> _id doc) /\ ids_below c'.
Proof.
  intros (Hv & _ & ->)%create_inr Hbelow.
  apply validate_inr in Hv as (? & ? & ? & ? & _ & _ & _ & _ & _ & ->).
  split.
  - intros d' Hd' Heq. apply Hbelow in Hd'. simpl in Heq. lia.
  - intros d' [Hd'| ->%list_elem_of_singleton]%elem_of_app; simpl.
    + apply Hbelow in Hd'. lia.
    + lia.
Qed.

(** A document written by a handler is the outcome of the handler's one
    [Message.create]. *)
Lemma inserted_by_create sid e env s d :
  db_insert d ∈ (handle sid e env s).2 ->
  exists draft,
    create draft env (messages s) = (inr d, messages (handle sid e env s).1).
Proof.
  assert (Hasync : forall draft k,
    (forall r eff, eff ∈ k r -> eff <> db_insert d) ->
    db_insert d ∈ (run_async (await_create draft k) env s).2 ->
    create draft env (messages s)
    = (inr d, messages (run_async (await_create draft k) env s).1)).
  { intros draft k Hk. unfold run_async.
    destruct (create draft env (messages s)) as [[err|doc] c'] eqn:Hc; simpl.
    - intros Hin. by destruct (Hk _ _ Hin).
    - intros [[= <-]|Hin]%elem_of_cons; [done|]. by destruct (Hk _ _ Hin). }
  intros Hin. destruct e; unfold handle in *.
  - simpl in Hin. exfalso. revert Hin. not_listed.
  - eexists. apply Hasync; [|exact Hin].
    intros [err|doc] eff; simpl; intros Heff ->; revert Heff; not_listed.
  - unfold on_typing in Hin. destruct (users s !! sid); simpl in Hin;
      exfalso; revert Hin; not_listed.
  - unfold on_private_message in *.
    destruct (nullish payload); [exfalso; revert Hin; simpl; not_listed|].
    eexists. apply Hasync; [|exact Hin].
    intros [err|doc] eff; simpl; intros Heff ->; revert Heff; not_listed.
  - simpl in Hin. destruct (users s !! sid); simpl in Hin;
      exfalso; revert Hin; not_listed.
Qed.

(** What a handler writes, field by field. *)
Lemma written_document_shape sid e env s d :
  db_insert d ∈ (handle sid e env s).2 ->
  text d <> ""
  /\ (exists name, sender d = Some name)
  /\ senderId d = sid
  /\ _id d = next_id (messages s)
  /\ createdAt d = now env
  /\ docs (messages (handle sid e env s).1) = docs (messages s) ++ [d]
  /\ (if isPrivate d then room d = None
      else (exists r, room d = Some r) /\ to d = None).
Proof.
  assert (Hsender : forall sd,
            with_default (castString (sender_name sid s)) (Some "Anonymous")
            = Some sd -> exists name, sd = Some name).
  { intros sd Hsd.
    destruct (castString_truthy _ (sender_name_truthy sid s)) as [Hc|[str Hc]];
      rewrite Hc in Hsd; simpl in Hsd; [done|]. injection Hsd as <-. by eexists. }
  intros Hin. destruct e; unfold handle in *.
  - simpl in Hin. exfalso. revert Hin. not_listed.
  - unfold on_send_message, run_async in *.
    destruct (create _ env (messages s)) as [[err|doc] c'] eqn:Hc; simpl in *;
      [exfalso; revert Hin; not_listed|].
    apply elem_of_cons in Hin as [[= <-]|Hin]; [|exfalso; revert Hin; not_listed].
    apply create_inr in Hc as (Hv & _ & ->).
    apply validate_inr in Hv as (r & ? & sd & ? & Hr & _ & Hne & Hsd & Hto & ->).
    destruct (public_room_is_string _ _ _ _ Hr) as [str ->].
    simpl in *. injection Hto as <-. destruct (Hsender sd Hsd) as [name ->].
    repeat split; try done; by eexists.
  - unfold on_typing in Hin. destruct (users s !! sid); simpl in Hin;
      exfalso; revert Hin; not_listed.
  - unfold on_private_message, run_async in *.
    destruct (nullish payload); [exfalso; revert Hin; simpl; not_listed|].
    destruct (create _ env (messages s)) as [[err|doc] c'] eqn:Hc; simpl in *;
      [exfalso; revert Hin; not_listed|].
    apply elem_of_cons in Hin as [[= <-]|Hin]; [|exfalso; revert Hin; not_listed].
    apply create_inr in Hc as (Hv & _ & ->).
    apply validate_inr in Hv as (r & ? & sd & ? & Hr & _ & Hne & Hsd & _ & ->).
    simpl in *. injection Hr as <-. destruct (Hsender sd Hsd) as [name ->].
    repeat split; try done. by exists name.
  - simpl in Hin. destruct (users s !! sid); simpl in Hin;
      exfalso; revert Hin; not_listed.
Qed.

(** X17: every document a handler writes has a non-empty text, a sender
    name, the sending socket's id, the collection's next object id and the
    current time, and is appended to the collection; a private one has no
    room, a public one has a room and no target. Where every stored id lies
    below the collection's next id, the id is fresh (no document stored
    before has it) and the collection after the write is of that kind
    again. *)
Theorem stored_documents_are_well_formed (sid : string) (e : Event)
    (env : Env) (s : Server) (d : Doc) :
  db_insert d ∈ (handle sid e env s).2 ->
  text d <> ""
  /\ (exists name, sender d = Some name)
  /\ senderId d = sid
  /\ _id d = next_id (messages s)
  /\ createdAt d = now env
  /\ docs (messages (handle sid e env s).1) = docs (messages s) ++ [d]
  /\ (if isPrivate d then room d = None
      else (exists r, room d = Some r) /\ to d = None)
  /\ (ids_below (messages s) ->
      (forall d', d' ∈ docs (messages s) -> _id d' <> _id d)
      /\ ids_below (messages (handle sid e env s).1)).
Proof.
  intros Hin.
  destruct (written_document_shape _ _ _ _ _ Hin)
    as (Htext & Hsender & Hsid & Hid & Htime & Hdocs & Hkind).
  repeat (split; [assumption|]).
  destruct (inserted_by_create _ _ _ _ _ Hin) as [draft Hc].
  by apply (create_ids_below _ _ _ _ _ Hc).
Qed.

Lemma stored_documents_are_well_formed_witness :
  let d := {| _id := 0; room := None; text := "psst"; sender := Some "Alice";
              senderId := "a"; to := Some "b"; isPrivate := true;
              createdAt := 5 |} in
  db_insert d ∈ (handle "a" (ev_private_message psst_to_b) (at_time 5)
                   alice_and_bob).2
  /\ docs (messages (handle "a" (ev_private_message psst_to_b) (at_time 5)
                       alice_and_bob).1) = [d].
Proof.
  intros d.
  assert (Hin : db_insert d ∈ (handle "a" (ev_private_message psst_to_b)
                                 (at_time 5) alice_and_bob).2) by left.
  split; [exact Hin|].
  destruct (stored_documents_are_well_formed "a" (ev_private_message psst_to_b)
              (at_time 5) alice_and_bob d Hin) as (_ & _ & _ & _ & _ & Hdocs & _).
  exact Hdocs.
Defined.
